(** * assemble_pixabay_video: a shallow embedding of the assembly script

    The script is a linear batch job: it resolves an API key, looks up one
    stock clip per configured segment on Pixabay, downloads it unless the
    file is already there, trims and rescales it, concatenates the clips,
    optionally lays an audio mix over them and exports the result.

    Everything the script touches outside the interpreter (files, the
    network, the environment, the terminal) is gathered in a [World]; the
    script's functions are state-and-exception computations over it.

    Left out, as they decide nothing below: what the script prints, the tqdm
    progress bar with the content-length it shows, and the creation of the
    assets directory (the disk is a flat map from paths to contents). *)

From Stdlib Require Import ZArith QArith Qminmax Ascii Floats.PrimFloat.
From stdpp Require Import gmap strings list.

Set Warnings "-register-all".
Local Open Scope Z_scope.

(** ** Python values that come out of [resp.json()] *)

Module Py.

(** A decoded JSON document, with the Python types [json.loads] produces:
    [None], [bool], [int], [float], [str], [list] and [dict]. *)
Inductive json :=
| JNull
| JBool (b : bool)
| JInt (z : Z)
| JFloat (f : float)
| JStr (s : string)
| JArr (l : list json)
| JObj (m : gmap string json).

(** The exceptions that can leave the script. *)
Inductive exn :=
| NoResults (query : string)   (* RuntimeError(f"No Pixabay results for {query!r}") *)
| KeyError (key : string)
| KeyErrorInt (key : Z)
| TypeError
| AttributeError
| IndexError
| HTTPError (status : Z)       (* requests.HTTPError from raise_for_status *)
| RequestException             (* connection failure, timeout, unusable URL *)
| JSONDecodeError
| EOFError
| OSError                      (* IOError of the media readers and writers *)
| ValueError
| ZeroDivisionError.

Inductive result (A : Type) :=
| Ok (a : A)
| Raise (e : exn).
Arguments Ok {A} a.
Arguments Raise {A} e.

(** [bool(x)] *)
Definition truthy (j : json) : bool :=
  match j with
  | JNull => false
  | JBool b => b
  | JInt z => negb (z =? 0)
  | JFloat f => negb (PrimFloat.eqb f 0%float)
  | JStr s => negb (String.eqb s "")
  | JArr l => match l with [] => false | _ :: _ => true end
  | JObj m => negb (bool_decide (m = ∅))
  end.

(** [x.get(k)]: only a [dict] has the method; a missing key gives [None]. *)
Definition get (x : json) (k : string) : result json :=
  match x with
  | JObj m => Ok (default JNull (m !! k))
  | _ => Raise AttributeError
  end.

(** [x[k]] for a string key [k]. *)
Definition getitem (x : json) (k : string) : result json :=
  match x with
  | JObj m => match m !! k with Some v => Ok v | None => Raise (KeyError k) end
  | _ => Raise TypeError
  end.

(** [x[0]].  A JSON object has string keys only, so [0] is never one of
    them; a string yields its first character. *)
Definition getitem0 (x : json) : result json :=
  match x with
  | JArr l => match l with v :: _ => Ok v | [] => Raise IndexError end
  | JStr s => match s with
              | String c _ => Ok (JStr (String c EmptyString))
              | EmptyString => Raise IndexError
              end
  | JObj _ => Raise (KeyErrorInt 0)
  | _ => Raise TypeError
  end.

(** [a or b], with [b] evaluated only when [a] is falsy. *)
Definition or_else (a : json) (b : result json) : result json :=
  if truthy a then Ok a else b.

Definition rbind {A B} (r : result A) (k : A → result B) : result B :=
  match r with Ok a => k a | Raise e => Raise e end.

(** [s.strip()]: the code points below 256 for which [str.isspace] holds. *)
Definition isspace (c : Ascii.ascii) : bool :=
  let n := Z.of_nat (Ascii.nat_of_ascii c) in
  ((9 <=? n) && (n <=? 13)) || ((28 <=? n) && (n <=? 32))
  || (n =? 133) || (n =? 160).

Fixpoint lstrip (s : string) : string :=
  match s with
  | String c s' => if isspace c then lstrip s' else s
  | EmptyString => EmptyString
  end.

Fixpoint rstrip (s : string) : string :=
  match s with
  | String c s' =>
      match rstrip s' with
      | EmptyString => if isspace c then EmptyString else String c EmptyString
      | t => String c t
      end
  | EmptyString => EmptyString
  end.

Definition strip (s : string) : string := rstrip (lstrip s).

End Py.
Export Py.

(** ** The world outside the interpreter *)

(** What a media file holds, as ffmpeg reports it. *)
Record MediaInfo := {
  m_size : Z * Z;        (* width, height *)
  m_duration : Q;        (* seconds *)
  m_fps : Q;
  m_audio : bool         (* an audio stream was found *)
}.

(** The content of a file or of a response body, by what it decodes to. *)
Inductive payload :=
| PJson (j : json)
| PVideo (i : MediaInfo)
| PAudio (duration : Q)
| PText (s : string).

(** One call of [requests.get]. *)
Record request := {
  r_url : string;
  r_params : list (string * string);
  r_stream : bool;
  r_timeout : Z
}.

Record response := {
  status_code : Z;
  body : payload
}.

Record World := {
  fs : gmap string payload;            (* files, by path *)
  net : request → option response;     (* the servers; None: no answer *)
  log : list request;                  (* requests issued, oldest first *)
  environ : gmap string string;
  stdin : list string;                 (* lines still to be typed *)
  ffmpeg_ok : bool                     (* the encoder runs through *)
}.

Definition set_fs (f : gmap string payload → gmap string payload) (w : World) : World :=
  {| fs := f (fs w); net := net w; log := log w; environ := environ w;
     stdin := stdin w; ffmpeg_ok := ffmpeg_ok w |}.

Definition set_log (f : list request → list request) (w : World) : World :=
  {| fs := fs w; net := net w; log := f (log w); environ := environ w;
     stdin := stdin w; ffmpeg_ok := ffmpeg_ok w |}.

Definition set_stdin (l : list string) (w : World) : World :=
  {| fs := fs w; net := net w; log := log w; environ := environ w;
     stdin := l; ffmpeg_ok := ffmpeg_ok w |}.

(** ** Computations: state passing with exceptions *)

Definition M (A : Type) : Type := World → result A * World.

Definition ret {A} (a : A) : M A := fun w => (Ok a, w).
Definition raise {A} (e : exn) : M A := fun w => (Raise e, w).
Definition bind {A B} (m : M A) (k : A → M B) : M B :=
  fun w => match m w with
           | (Ok a, w') => k a w'
           | (Raise e, w') => (Raise e, w')
           end.
Definition lift {A} (r : result A) : M A := fun w => (r, w).

Declare Scope py_scope.
Delimit Scope py_scope with py.
Notation "'let*' x ':=' m 'in' k" := (bind m (fun x => k))
  (at level 10, x pattern, m at level 100, k at level 200) : py_scope.
Local Open Scope py_scope.

(** ** The libraries' calls *)

Module requests.

(** [requests.get(url, params=..., stream=..., timeout=...)] *)
Definition get (r : request) : M response := fun w =>
  let w' := set_log (fun l => l ++ [r]) w in
  match net w r with
  | Some resp => (Ok resp, w')
  | None => (Raise RequestException, w')
  end.

(** [resp.raise_for_status()] *)
Definition raise_for_status (resp : response) : M unit :=
  if (400 <=? status_code resp) && (status_code resp <? 600)
  then raise (HTTPError (status_code resp))
  else ret tt.

(** [resp.json()] *)
Definition json (resp : response) : result Py.json :=
  match body resp with
  | PJson j => Ok j
  | _ => Raise JSONDecodeError
  end.

End requests.

(** The environment, the terminal and the disk. *)
Module os.

(** [os.getenv(name)] *)
Definition getenv (name : string) : M (option string) :=
  fun w => (Ok (environ w !! name), w).

(** [input(prompt)] *)
Definition input (prompt : string) : M string := fun w =>
  match stdin w with
  | line :: rest => (Ok line, set_stdin rest w)
  | [] => (Raise EOFError, w)
  end.

(** [Path(p).exists()] *)
Definition exists_ (p : string) : M bool :=
  fun w => (Ok (bool_decide (is_Some (fs w !! p))), w).

(** [open(p, "wb")] and the writes of every chunk of the body. *)
Definition write (p : string) (d : payload) : M unit :=
  fun w => (Ok tt, set_fs (insert p d) w).

End os.

(** ** 2. Pixabay helper *)

(** [API_KEY = os.getenv("PIXABAY_KEY") or input("Enter your Pixabay API key: ").strip()] *)
Definition resolve_API_KEY : M string :=
  let* v := os.getenv "PIXABAY_KEY" in
  match v with
  | Some (String c s) => ret (String c s)
  | _ => let* typed := os.input "Enter your Pixabay API key: " in ret (strip typed)
  end.

Definition BASE : string := "https://pixabay.com/api/videos/".

Definition search_request (API_KEY query : string) : request :=
  {| r_url := BASE;
     r_params := [("key", API_KEY); ("q", query); ("safesearch", "true"); ("per_page", "3")];
     r_stream := false;
     r_timeout := 15 |}.

(** The part of [px_search_video] after [data = resp.json()]. *)
Definition pick_url (query : string) (data : json) : result json :=
  rbind (Py.get data "hits") (fun hits =>
  if negb (truthy hits) then Raise (NoResults query) else
  rbind (rbind (rbind (getitem0 hits) (fun h => getitem h "videos"))
               (fun v => getitem v "large")) (fun large =>
  rbind (or_else large
           (rbind (rbind (getitem0 hits) (fun h => getitem h "videos"))
                  (fun v => getitem v "medium"))) (fun best =>
  getitem best "url"))).

Definition px_search_video (API_KEY query : string) : M json :=
  let* resp := requests.get (search_request API_KEY query) in
  let* _ := requests.raise_for_status resp in
  let* data := lift (requests.json resp) in
  lift (pick_url query data).

Definition download_request (url : string) : request :=
  {| r_url := url; r_params := []; r_stream := true; r_timeout := 60 |}.

(** [download(url, dst)].  [url] is whatever [px_search_video] returned;
    requests refuses anything that is not a URL before it sends. *)
Definition download (url : json) (dst : string) : M unit :=
  let* there := os.exists_ dst in
  if there : bool then ret tt else
  match url with
  | JStr u =>
      let* r := requests.get (download_request u) in
      let* _ := requests.raise_for_status r in
      os.write dst (body r)
  | _ => raise RequestException
  end.

(** ** The editing library (moviepy 1.0.3, the version the script asks for) *)

Module moviepy.

(** Times are seconds.  [a <? b] on rationals: *)
Definition Qltb (a b : Q) : bool := negb (Qle_bool b a).

(** An audio clip is the chain of operations that produces its samples. *)
Inductive AudioClip :=
| AFile (path : string) (duration : Q)            (* AudioFileClip(path) *)
| AWindow (t_start duration : Q) (a : AudioClip)  (* a.subclip(..) *)
| AVolumex (factor : float) (a : AudioClip)       (* a.volumex(factor) *)
| AStart (t : Q) (a : AudioClip)                  (* a.set_start(t) *)
| AComposite (l : list AudioClip)                 (* CompositeAudioClip(l) *)
| AFadeout (d : Q) (a : AudioClip).               (* a.audio_fadeout(d) *)

Fixpoint a_start (a : AudioClip) : Q :=
  match a with
  | AStart t _ => t
  | AVolumex _ a' | AFadeout _ a' => a_start a'
  | _ => 0
  end.

Fixpoint a_duration (a : AudioClip) : Q :=
  match a with
  | AFile _ d => d
  | AWindow _ d _ => d
  | AVolumex _ a' | AStart _ a' | AFadeout _ a' => a_duration a'
  | AComposite l =>
      fold_right (fun x acc => Qmax (a_start x + a_duration x) acc) 0%Q l
  end.

(** [Clip.subclip]'s arithmetic on a clip of length [duration]: the new
    origin in the source and the new length.  A negative time counts from
    the end; the only check is that the origin lies inside the clip. *)
Definition subclip_times (duration t_start t_end : Q) : result (Q * Q) :=
  let t_start := if Qltb t_start 0 then (duration + t_start)%Q else t_start in
  if Qltb duration t_start then Raise ValueError else
  let t_end := if Qltb t_end 0 then (duration + t_end)%Q else t_end in
  Ok (t_start, (t_end - t_start)%Q).

Definition a_subclip (t_start t_end : Q) (a : AudioClip) : result AudioClip :=
  rbind (subclip_times (a_duration a) t_start t_end) (fun '(t0, d) =>
  Ok (AWindow t0 d a)).

(** A video clip read from a file, with the attributes the script's calls
    read or set. *)
Record VideoClip := {
  v_file : string;                  (* where the frames come from *)
  v_offset : Q;                     (* time in the source of the clip's t = 0 *)
  v_size : Z * Z;                   (* w, h *)
  v_start : Q;
  v_duration : Q;
  v_fps : Q;
  v_audio : option AudioClip
}.

Definition v_w (c : VideoClip) : Z := fst (v_size c).
Definition v_h (c : VideoClip) : Z := snd (v_size c).

(** [VideoFileClip(path)] *)
Definition VideoFileClip (path : string) : M VideoClip := fun w =>
  match fs w !! path with
  | Some (PVideo i) =>
      (Ok {| v_file := path; v_offset := 0; v_size := m_size i; v_start := 0;
             v_duration := m_duration i; v_fps := m_fps i;
             v_audio := if m_audio i then Some (AFile path (m_duration i)) else None |},
       w)
  | _ => (Raise OSError, w)
  end.

(** [clip.subclip(t_start, t_end)]; the audio is cut with the same call. *)
Definition subclip (t_start t_end : Q) (c : VideoClip) : result VideoClip :=
  rbind (subclip_times (v_duration c) t_start t_end) (fun '(t0, d) =>
  rbind (match v_audio c with
         | Some a => rbind (a_subclip t_start t_end a) (fun a' => Ok (Some a'))
         | None => Ok None
         end) (fun audio =>
  Ok {| v_file := v_file c; v_offset := (v_offset c + t0)%Q; v_size := v_size c;
        v_start := v_start c; v_duration := d; v_fps := v_fps c;
        v_audio := audio |})).

Definition with_size (s : Z * Z) (c : VideoClip) : VideoClip :=
  {| v_file := v_file c; v_offset := v_offset c; v_size := s;
     v_start := v_start c; v_duration := v_duration c; v_fps := v_fps c;
     v_audio := v_audio c |}.

(** [clip.resize(height=height)]: newsize = [w * height / h, height], each
    side then cut to an integer.  [w * height / h] is a float division; the
    quotient below is its integer part whenever [w * height < 2^53]. *)
Definition resize_height (height : Z) (c : VideoClip) : result VideoClip :=
  if v_h c =? 0 then Raise ZeroDivisionError
  else Ok (with_size (Z.quot (v_w c * height) (v_h c), height) c).

(** [clip.resize(width=width)]: newsize = [width, h * width / w]. *)
Definition resize_width (width : Z) (c : VideoClip) : result VideoClip :=
  if v_w c =? 0 then Raise ZeroDivisionError
  else Ok (with_size (width, Z.quot (v_h c * width) (v_w c)) c).

(** [clip.set_fps(fps)] *)
Definition set_fps (fps : Q) (c : VideoClip) : VideoClip :=
  {| v_file := v_file c; v_offset := v_offset c; v_size := v_size c;
     v_start := v_start c; v_duration := v_duration c; v_fps := fps;
     v_audio := v_audio c |}.

(** [clip.set_start(t)]; the audio moves along. *)
Definition set_start (t : Q) (c : VideoClip) : VideoClip :=
  {| v_file := v_file c; v_offset := v_offset c; v_size := v_size c;
     v_start := t; v_duration := v_duration c; v_fps := v_fps c;
     v_audio := AStart t <$> v_audio c |}.

(** The timeline [concatenate_videoclips] builds. *)
Record CompositeVideoClip := {
  c_clips : list VideoClip;         (* each with its start on the timeline *)
  c_size : Z * Z;
  c_duration : Q;
  c_fps : option Q;
  c_audio : option AudioClip
}.

(** [np.cumsum([0] + [c.duration for c in clips])], from a running total. *)
Fixpoint cumsum (acc : Q) (ds : list Q) : list Q :=
  match ds with
  | [] => [acc]
  | d :: ds' => acc :: cumsum (acc + d)%Q ds'
  end.

Definition maximum (z : Z) (l : list Z) : Z := fold_right Z.max z l.
Definition Qmaximum (q : Q) (l : list Q) : Q := fold_right Qmax q l.

(** [concatenate_videoclips(clips, method="compose")].  [max] of an empty
    sequence raises. *)
Definition concatenate_videoclips (clips : list VideoClip) : result CompositeVideoClip :=
  let tt := cumsum 0 (map v_duration clips) in
  match clips with
  | [] => Raise ValueError
  | c0 :: cs =>
      let w := maximum (v_w c0) (map v_w cs) in
      let h := maximum (v_h c0) (map v_h cs) in
      let audio_t :=
        omap (fun '(c, t) => AStart t <$> v_audio c) (zip clips tt) in
      let fpss := List.filter (fun q => negb (Qeq_bool q 0)) (map v_fps clips) in
      Ok {| c_clips := zip_with (fun c t => set_start t c) clips tt;
            c_size := (w, h);
            c_duration := List.last tt 0%Q;
            c_fps := match fpss with [] => None | f :: fs' => Some (Qmaximum f fs') end;
            c_audio := match audio_t with [] => None | _ :: _ => Some (AComposite audio_t) end |}
  end.

(** [AudioFileClip(path)]: ffmpeg takes the sound of an audio file or of a
    video file that has some. *)
Definition AudioFileClip (path : string) : M AudioClip := fun w =>
  match fs w !! path with
  | Some (PAudio d) => (Ok (AFile path d), w)
  | Some (PVideo i) =>
      if m_audio i then (Ok (AFile path (m_duration i)), w) else (Raise OSError, w)
  | _ => (Raise OSError, w)
  end.

(** [video.set_audio(audio)] *)
Definition set_audio (a : AudioClip) (v : CompositeVideoClip) : CompositeVideoClip :=
  {| c_clips := c_clips v; c_size := c_size v; c_duration := c_duration v;
     c_fps := c_fps v; c_audio := Some a |}.

(** [video.write_videofile(out, ..., fps=fps, ...)]: the file gets an audio
    stream exactly when the clip has an audio attribute. *)
Definition write_videofile (out : string) (fps : Q) (v : CompositeVideoClip) : M unit :=
  fun w =>
    if ffmpeg_ok w then
      os.write out (PVideo {| m_size := c_size v; m_duration := c_duration v;
                              m_fps := fps;
                              m_audio := bool_decide (is_Some (c_audio v)) |}) w
    else (Raise OSError, w).

End moviepy.
Export moviepy.

(** ** 1. Config: search queries + segment lengths *)

(** One entry of the table: (query, dur, fname). *)
Definition Segment : Type := string * Q * string.

Definition SEGMENTS : list Segment := [
  ("sunrise timelapse",        5%Q, "sunrise.mp4");
  ("diverse friends smiling",  5%Q, "friends.mp4");
  ("bible pages turning",     10%Q, "bible.mp4");
  ("family hug reunion",      10%Q, "family.mp4");
  ("people dancing field",    10%Q, "dancing.mp4");
  ("worship church crowd",    10%Q, "worship.mp4");
  ("cross silhouette sunset", 10%Q, "cross.mp4")
].

Definition ASSETS : string := "assets".

(** [ASSETS / fname]: an absolute name replaces the directory, an empty one
    leaves it. *)
Definition joinpath (dir name : string) : string :=
  match name with
  | EmptyString => dir
  | String "/"%char _ => name
  | _ => dir +:+ "/" +:+ name
  end.

(** ** 3. Fetch every segment *)

(** [clip.resize(height=1920) if clip.w < clip.h else clip.resize(width=1080)] *)
Definition resize_step (clip : VideoClip) : result VideoClip :=
  if v_w clip <? v_h clip then resize_height 1920 clip else resize_width 1080 clip.

(** The load, trim, resize and frame-rate steps of the loop body. *)
Definition process (fp : string) (dur : Q) : M VideoClip :=
  let* clip := VideoFileClip fp in
  let* clip := lift (subclip 0 dur clip) in
  let* clip := lift (resize_step clip) in
  ret (set_fps 30 clip).

(** One turn of the [for query, dur, fname in SEGMENTS] loop; the result is
    what the turn appends to [clips]. *)
Definition fetch_segment (API_KEY : string) (seg : Segment) : M VideoClip :=
  let '(query, dur, fname) := seg in
  let fp := joinpath ASSETS fname in
  let* url := px_search_video API_KEY query in
  let* _ := download url fp in
  process fp dur.

Fixpoint fetch_all (API_KEY : string) (segs : list Segment) (clips : list VideoClip)
  : M (list VideoClip) :=
  match segs with
  | [] => ret clips
  | seg :: rest =>
      let* clip := fetch_segment API_KEY seg in
      fetch_all API_KEY rest (clips ++ [clip])
  end.

(** ** 4. Optional audio (VO + music) *)

Definition load_audios : M (list AudioClip) :=
  let* music := os.exists_ "music.mp3" in
  let* audios :=
    (if music : bool
     then let* a := AudioFileClip "music.mp3" in ret [AVolumex 0.25 a]
     else ret []) in
  let* vo := os.exists_ "vo.wav" in
  if vo : bool
  then let* a := AudioFileClip "vo.wav" in ret (audios ++ [AVolumex 1.0 a])
  else ret audios.

(** [if audios: ... video = video.set_audio(audio)] *)
Definition mix (audios : list AudioClip) (video : CompositeVideoClip) : CompositeVideoClip :=
  match audios with
  | [] => video
  | _ :: _ => set_audio (AFadeout 1 (AComposite audios)) video
  end.

(** ** 5. Export, and the script as a whole *)

Definition out : string := "final_video.mp4".

(** The run for a table [segs]; it yields the timeline it exported. *)
Definition run (segs : list Segment) : M CompositeVideoClip :=
  let* API_KEY := resolve_API_KEY in
  let* clips := fetch_all API_KEY segs [] in
  let* video := lift (concatenate_videoclips clips) in
  let* audios := load_audios in
  let video := mix audios video in
  let* _ := write_videofile out 30 video in
  ret video.

Definition main : M CompositeVideoClip := run SEGMENTS.

(** ** Vocabulary of the statements *)

(** The server answered [r] without an error status. *)
Definition answered (w : World) (r : request) (resp : response) : Prop :=
  net w r = Some resp ∧
  (400 <=? status_code resp) && (status_code resp <? 600) = false.

(** The world after one more request went out. *)
Definition sent (r : request) (w : World) : World :=
  set_log (fun l => l ++ [r]) w.

(** The response holds no hit: the field is missing or an empty list. *)
Definition no_hits (dm : gmap string json) : Prop :=
  dm !! "hits" = None ∨ dm !! "hits" = Some (JArr []).

(** The "hits" field, when there, is a list, as the API documents it. *)
Definition hits_listed (dm : gmap string json) : Prop :=
  dm !! "hits" = None ∨ ∃ l, dm !! "hits" = Some (JArr l).

(** [clip] is what the loop body makes of the segment's file: the outcome
    of [process] on the segment's path and length, in some state of the
    disk. *)
Definition processed_from (seg : Segment) (clip : VideoClip) : Prop :=
  ∃ w, process (joinpath ASSETS seg.2) seg.1.2 w = (Ok clip, w).

(** The end [subclip(0, t_end)] settles on for a source of length [d]. *)
Definition trim_end (d t_end : Q) : Q :=
  if Qltb t_end 0 then (d + t_end)%Q else t_end.

(** A string made of white space only. *)
Fixpoint blank (s : string) : bool :=
  match s with
  | EmptyString => true
  | String c s' => isspace c && blank s'
  end.

Definition starts_space (s : string) : bool :=
  match s with
  | EmptyString => false
  | String c _ => isspace c
  end.

Fixpoint ends_space (s : string) : bool :=
  match s with
  | EmptyString => false
  | String c EmptyString => isspace c
  | String _ s' => ends_space s'
  end.

(** The variable is unset or set to the empty string. *)
Definition no_key_in_environ (w : World) : Prop :=
  environ w !! "PIXABAY_KEY" = None ∨ environ w !! "PIXABAY_KEY" = Some "".

(** No file of [w] is missing in [w']. *)
Definition keeps_files (w w' : World) : Prop :=
  ∀ p, is_Some (fs w !! p) → is_Some (fs w' !! p).


(** The configured lengths of a table, and the sum of a list of times. *)
Definition durs (segs : list Segment) : list Q := map (fun seg : Segment => seg.1.2) segs.
Definition Qsum (l : list Q) : Q := fold_right Qplus 0%Q l.

(** The requests of [download] among those issued. *)
Definition downloads (l : list request) : list request :=
  List.filter r_stream l.

(** The requests of [px_search_video] among those issued. *)
Definition searches (l : list request) : list request :=
  List.filter (fun r => negb (r_stream r)) l.

(** ** Sample worlds, for the statements' instances *)

Module Sample.

Definition video (w h : Z) (d : Q) (sound : bool) : payload :=
  PVideo {| m_size := (w, h); m_duration := d; m_fps := 25; m_audio := sound |}.

Definition rendition (u : string) : json := JObj {[ "url" := JStr u ]}.

Definition hit (large medium : json) : json :=
  JObj {[ "videos" := JObj {[ "large" := large; "medium" := medium ]} ]}.

Definition page (hits : list json) : response :=
  {| status_code := 200;
     body := PJson (JObj {[ "total" := JInt (Z.of_nat (length hits));
                            "hits" := JArr hits ]}) |}.

Definition file (d : payload) : response :=
  {| status_code := 200; body := d |}.

(** A server that knows five queries and two files. *)
Definition server (r : request) : option response :=
  if r_stream r then
    if String.eqb (r_url r) "http://cdn/a" then Some (file (video 1920 1080 (7 # 2) true))
    else if String.eqb (r_url r) "http://cdn/b" then Some (file (video 720 1280 20 false))
    else Some {| status_code := 404; body := PText "" |}
  else
    match r_params r with
    | [_; (_, q); _; _] =>
        if String.eqb q "wide" then Some (page [hit (rendition "http://cdn/a") JNull])
        else if String.eqb q "tall" then Some (page [hit JNull (rendition "http://cdn/b")])
        else if String.eqb q "bare"
          then Some (page [JObj {[ "videos" := JObj {[ "medium" := rendition "http://cdn/b" ]} ]}])
        else if String.eqb q "void" then Some (page [hit JNull JNull])
        else Some (page [])
    | _ => None
    end.

(** A world whose server answers every request with the page [hits]. *)
Definition answering (hits : list json) : World :=
  {| fs := ∅; net := fun _ => Some (page hits); log := [];
     environ := {[ "PIXABAY_KEY" := "k" ]}; stdin := []; ffmpeg_ok := true |}.

(** A server that turns every request down, hits in the body or not. *)
Definition denying : World :=
  {| fs := ∅;
     net := fun _ => Some {| status_code := 401;
                             body := PJson (JObj {[ "hits" := JArr [hit JNull JNull] ]}) |};
     log := []; environ := {[ "PIXABAY_KEY" := "k" ]}; stdin := [];
     ffmpeg_ok := true |}.

(** A server with a hit for every query and a short video behind every URL. *)
Definition generous : World :=
  {| fs := ∅;
     net := fun r => if r_stream r then Some (file (video 1920 1080 (7 # 2) false))
                     else Some (page [hit (rendition "http://cdn/a") JNull]);
     log := []; environ := {[ "PIXABAY_KEY" := "k" ]}; stdin := [];
     ffmpeg_ok := true |}.

(** Nothing on disk yet, the key in the environment. *)
Definition fresh : World :=
  {| fs := ∅; net := server; log := [];
     environ := {[ "PIXABAY_KEY" := "k" ]}; stdin := []; ffmpeg_ok := true |}.

Definition segs : list Segment := [("wide", 5%Q, "a.mp4"); ("tall", 10%Q, "b.mp4")].

(** The world a first run over [segs] leaves behind. *)
Definition after_run : World := Eval vm_compute in snd (run segs fresh).

(** The timeline that run exported. *)
Definition exported : CompositeVideoClip :=
  Eval vm_compute in
    match fst (run segs fresh) with
    | Ok video => video
    | Raise _ =>
        {| c_clips := []; c_size := (0, 0); c_duration := 0; c_fps := None;
           c_audio := None |}
    end.

(** The clips and the world of the loop when it is run a second time. *)
Definition again : list VideoClip * World :=
  Eval vm_compute in
    match fetch_all "k" segs [] after_run with
    | (Ok clips, w) => (clips, w)
    | (Raise _, w) => ([], w)
    end.


(** The clips and the world after the first turn of the loop. *)
Definition after_one : list VideoClip * World :=
  Eval vm_compute in
    match fetch_all "k" [("wide", 5%Q, "a.mp4")] [] fresh with
    | (Ok clips, w) => (clips, w)
    | (Raise _, w) => ([], w)
    end.





(** What the script's own table gives on the generous server. *)
Definition minute : CompositeVideoClip :=
  Eval vm_compute in
    match fst (main generous) with
    | Ok video => video
    | Raise _ =>
        {| c_clips := []; c_size := (0, 0); c_duration := 0; c_fps := None;
           c_audio := None |}
    end.

Definition minute_after : World := Eval vm_compute in snd (main generous).

(** No key in the environment, a blank line typed. *)
Definition blank_typed : World :=
  {| fs := ∅; net := server; log := []; environ := ∅; stdin := ["   "];
     ffmpeg_ok := true |}.

End Sample.

(** * Properties *)

(** ** The search client *)

Lemma truthy_dict (m : gmap string json) k v :
  m !! k = Some v → truthy (JObj m) = true.
Proof.
  intros Hk. simpl. rewrite bool_decide_eq_false_2; [done|].
  intros ->. by rewrite lookup_empty in Hk.
Qed.

(** Once the response is in, [px_search_video] is [pick_url] on its body. *)
Lemma px_search_video_answered key q w resp data :
  answered w (search_request key q) resp →
  body resp = PJson data →
  px_search_video key q w = (pick_url q data, sent (search_request key q) w).
Proof.
  intros [Hnet Hst] Hbody.
  unfold px_search_video, bind, requests.get, requests.raise_for_status,
    requests.json, lift, sent.
  rewrite Hnet, Hst, Hbody. reflexivity.
Qed.

(** A normal return means the response was in and decoded. *)
Lemma px_search_video_returns key q w u w' :
  px_search_video key q w = (Ok u, w') →
  ∃ resp data, answered w (search_request key q) resp ∧
               body resp = PJson data ∧ pick_url q data = Ok u.
Proof.
  unfold px_search_video, bind, requests.get, requests.raise_for_status,
    requests.json, lift, answered.
  destruct (net w (search_request key q)) as [resp|] eqn:Hnet; [|discriminate].
  destruct ((400 <=? status_code resp) && (status_code resp <? 600)) eqn:Hst;
    [discriminate|].
  simpl. destruct (body resp) as [data| | |] eqn:Hbody; try discriminate.
  intros [= Hpick _]. eauto 10.
Qed.

(** [pick_url] on a response whose first hit has a "videos" object. *)
Lemma pick_url_first_hit q (dm hm vm : gmap string json) rest :
  dm !! "hits" = Some (JArr (JObj hm :: rest)) →
  hm !! "videos" = Some (JObj vm) →
  pick_url q (JObj dm) =
    rbind (getitem (JObj vm) "large") (fun large =>
    rbind (or_else large (getitem (JObj vm) "medium")) (fun best =>
    getitem best "url")).
Proof.
  intros Hh Hv. unfold pick_url. simpl. rewrite Hh. simpl. rewrite Hv. reflexivity.
Qed.

(** A normal return of [pick_url] fixes the shape of the document down to
    the rendition that was picked. *)
Lemma pick_url_returns q data u :
  pick_url q data = Ok u →
  ∃ (dm hm vm : gmap string json) rest large,
    data = JObj dm ∧ dm !! "hits" = Some (JArr (JObj hm :: rest)) ∧
    hm !! "videos" = Some (JObj vm) ∧ vm !! "large" = Some large ∧
    ((∃ lm, large = JObj lm ∧ lm !! "url" = Some u) ∨
     (truthy large = false ∧
      ∃ mm, vm !! "medium" = Some (JObj mm) ∧ mm !! "url" = Some u)).
Proof.
  unfold pick_url. destruct data as [| | | | | |dm]; try discriminate. simpl.
  destruct (dm !! "hits") as [hits|] eqn:Hh; simpl; [|discriminate].
  destruct (truthy hits) eqn:Ht; simpl; [|discriminate].
  destruct hits as [| | | |s|l|m]; simpl; try discriminate.
  - destruct s; discriminate.
  - destruct l as [|h rest]; [discriminate|]. simpl.
    destruct h as [| | | | | |hm]; try discriminate. simpl.
    destruct (hm !! "videos") as [v|] eqn:Hv; [|discriminate]. simpl.
    destruct v as [| | | | | |vm]; try discriminate. simpl.
    destruct (vm !! "large") as [large|] eqn:Hl; [|discriminate]. simpl.
    intros Hbest. exists dm, hm, vm, rest, large. repeat split; try done.
    unfold or_else in Hbest. destruct (truthy large) eqn:Htl; simpl in Hbest.
    + left. destruct large as [| | | | | |lm]; try discriminate. simpl in Hbest.
      destruct (lm !! "url") eqn:Hu; [|discriminate]. exists lm.
      injection Hbest as <-. split; [reflexivity|exact Hu].
    + right. split; [done|].
      destruct (vm !! "medium") as [med|] eqn:Hm; [|discriminate]. simpl in Hbest.
      destruct med as [| | | | | |mm]; try discriminate. simpl in Hbest.
      destruct (mm !! "url") eqn:Hu; [|discriminate]. exists mm.
      injection Hbest as <-. split; [reflexivity|exact Hu].
Qed.

(** C3: on a response with at least one hit, [px_search_video] returns the
    URL of the first hit's "large" rendition, and the URL of the same hit's
    "medium" rendition when "large" is null. *)
Theorem px_search_video_first_hit key q w resp
    (dm hm vm : gmap string json) (rest : list json) :
  answered w (search_request key q) resp →
  body resp = PJson (JObj dm) →
  dm !! "hits" = Some (JArr (JObj hm :: rest)) →
  hm !! "videos" = Some (JObj vm) →
  (∀ (lm : gmap string json) u,
      vm !! "large" = Some (JObj lm) → lm !! "url" = Some u →
      px_search_video key q w = (Ok u, sent (search_request key q) w)) ∧
  (∀ (mm : gmap string json) u,
      vm !! "large" = Some JNull →
      vm !! "medium" = Some (JObj mm) → mm !! "url" = Some u →
      px_search_video key q w = (Ok u, sent (search_request key q) w)).
Proof.
  intros Hans Hbody Hh Hv.
  rewrite (px_search_video_answered _ _ _ _ _ Hans Hbody).
  rewrite (pick_url_first_hit q _ _ _ _ Hh Hv).
  split.
  - intros lm u Hl Hu. simpl. rewrite Hl. simpl. unfold or_else.
    rewrite (truthy_dict _ _ _ Hu). simpl. by rewrite Hu.
  - intros mm u Hl Hm Hu. simpl. rewrite Hl. simpl. unfold or_else. simpl.
    rewrite Hm. simpl. by rewrite Hu.
Qed.

(** C10: with a first hit in the response, [px_search_video] raises
    [KeyError] when the hit's "videos" has no "large" key and [TypeError]
    when "large" and "medium" are both null; it returns normally only when
    "large" is there and the rendition picked among "large" and "medium" is
    an object that holds "url". *)
Theorem px_search_video_partial key q w resp
    (dm hm vm : gmap string json) (rest : list json) :
  answered w (search_request key q) resp →
  body resp = PJson (JObj dm) →
  dm !! "hits" = Some (JArr (JObj hm :: rest)) →
  hm !! "videos" = Some (JObj vm) →
  (vm !! "large" = None →
     fst (px_search_video key q w) = Raise (KeyError "large")) ∧
  (vm !! "large" = Some JNull → vm !! "medium" = Some JNull →
     fst (px_search_video key q w) = Raise TypeError) ∧
  (∀ u, fst (px_search_video key q w) = Ok u →
     ∃ large, vm !! "large" = Some large ∧
       ((∃ lm : gmap string json, large = JObj lm ∧ lm !! "url" = Some u) ∨
        (∃ mm : gmap string json,
            vm !! "medium" = Some (JObj mm) ∧ mm !! "url" = Some u))).
Proof.
  intros Hans Hbody Hh Hv.
  rewrite (px_search_video_answered _ _ _ _ _ Hans Hbody). simpl.
  split; [|split].
  - intros Hl. rewrite (pick_url_first_hit q _ _ _ _ Hh Hv). simpl. by rewrite Hl.
  - intros Hl Hm. rewrite (pick_url_first_hit q _ _ _ _ Hh Hv). simpl.
    rewrite Hl. simpl. unfold or_else. simpl. by rewrite Hm.
  - intros u Hu.
    destruct (pick_url_returns _ _ _ Hu)
      as (dm' & hm' & vm' & rest' & large & Hd & Hh' & Hv' & Hl & Hpick).
    injection Hd as <-. rewrite Hh in Hh'. injection Hh' as <- <-.
    rewrite Hv in Hv'. injection Hv' as <-.
    exists large. split; [done|].
    destruct Hpick as [Hlm | [_ Hmm]]; [by left | by right].
Qed.

(** [pick_url] raises the "no results" error only through its guard. *)
Lemma pick_url_no_results q q' data :
  pick_url q data = Raise (NoResults q') →
  ∃ dm : gmap string json,
    data = JObj dm ∧ truthy (default JNull (dm !! "hits")) = false.
Proof.
  unfold pick_url. destruct data as [| | | | | |dm]; try discriminate. simpl.
  destruct (truthy (default JNull (dm !! "hits"))) eqn:Ht; simpl; [|eauto].
  intros H. exfalso. revert H. unfold or_else, rbind, getitem0, getitem.
  repeat case_match; intros; simplify_eq.
Qed.

Lemma fetch_all_app key pre post clips w :
  fetch_all key (pre ++ post) clips w =
  bind (fetch_all key pre clips) (fun cs => fetch_all key post cs) w.
Proof.
  revert clips w. induction pre as [|seg pre IH]; intros clips w; [done|].
  cbn [fetch_all app]. unfold bind.
  destruct (fetch_segment key seg w) as [[c|e] w1]; [|done].
  rewrite IH. reflexivity.
Qed.

(** C4: [px_search_video] raises the "no results" error exactly when the
    response holds no hit (an empty list, or no "hits" field), and the run
    then stops in that turn of the loop with the search request as the last
    one issued: no download is asked for. *)
Theorem no_results_iff_no_hits key q w resp (dm : gmap string json) :
  answered w (search_request key q) resp →
  body resp = PJson (JObj dm) →
  hits_listed dm →
  (fst (px_search_video key q w) = Raise (NoResults q) ↔ no_hits dm) ∧
  (no_hits dm →
     ∀ wi w0 pre clips dur fname rest,
       resolve_API_KEY wi = (Ok key, w0) →
       fetch_all key pre [] w0 = (Ok clips, w) →
       run (pre ++ (q, dur, fname) :: rest) wi =
         (Raise (NoResults q), sent (search_request key q) w)).
Proof.
  intros Hans Hbody Hlist.
  pose proof (px_search_video_answered _ _ _ _ _ Hans Hbody) as Hpx.
  assert (Hraise : no_hits dm → pick_url q (JObj dm) = Raise (NoResults q)).
  { intros [Hn | Hn]; unfold pick_url; simpl; by rewrite Hn. }
  split.
  - rewrite Hpx. simpl. split; [|exact Hraise].
    intros H. destruct (pick_url_no_results _ _ _ H) as (dm' & Hd & Ht).
    injection Hd as <-.
    destruct Hlist as [Hn | [l Hl]]; [by left|].
    rewrite Hl in Ht. simpl in Ht. destruct l; [by right | discriminate].
  - intros Hno wi w0 pre clips dur fname rest Hkey Hpre.
    unfold run. unfold bind at 1. rewrite Hkey.
    unfold bind at 1. rewrite fetch_all_app. unfold bind at 1. rewrite Hpre.
    simpl. unfold bind at 1. unfold fetch_segment. unfold bind at 1.
    rewrite Hpx, (Hraise Hno). reflexivity.
Qed.

(** *** Instances on the sample server *)

Lemma px_search_video_first_hit_witness :
  px_search_video "k" "wide" Sample.fresh =
    (Ok (JStr "http://cdn/a"), sent (search_request "k" "wide") Sample.fresh) ∧
  px_search_video "k" "tall" Sample.fresh =
    (Ok (JStr "http://cdn/b"), sent (search_request "k" "tall") Sample.fresh).
Proof.
  split.
  - apply (proj1 (px_search_video_first_hit "k" "wide" Sample.fresh
        (Sample.page [Sample.hit (Sample.rendition "http://cdn/a") JNull])
        {[ "total" := JInt 1;
           "hits" := JArr [Sample.hit (Sample.rendition "http://cdn/a") JNull] ]}
        {[ "videos" := JObj {[ "large" := Sample.rendition "http://cdn/a";
                               "medium" := JNull ]} ]}
        {[ "large" := Sample.rendition "http://cdn/a"; "medium" := JNull ]}
        []
        (conj eq_refl eq_refl) eq_refl eq_refl eq_refl)
      {[ "url" := JStr "http://cdn/a" ]}); reflexivity.
  - apply (proj2 (px_search_video_first_hit "k" "tall" Sample.fresh
        (Sample.page [Sample.hit JNull (Sample.rendition "http://cdn/b")])
        {[ "total" := JInt 1;
           "hits" := JArr [Sample.hit JNull (Sample.rendition "http://cdn/b")] ]}
        {[ "videos" := JObj {[ "large" := JNull;
                               "medium" := Sample.rendition "http://cdn/b" ]} ]}
        {[ "large" := JNull; "medium" := Sample.rendition "http://cdn/b" ]}
        []
        (conj eq_refl eq_refl) eq_refl eq_refl eq_refl)
      {[ "url" := JStr "http://cdn/b" ]}); reflexivity.
Defined.

Lemma px_search_video_partial_witness :
  fst (px_search_video "k" "bare" Sample.fresh) = Raise (KeyError "large") ∧
  fst (px_search_video "k" "void" Sample.fresh) = Raise TypeError.
Proof.
  split.
  - apply (proj1 (px_search_video_partial "k" "bare" Sample.fresh
        (Sample.page [JObj {[ "videos" :=
            JObj {[ "medium" := Sample.rendition "http://cdn/b" ]} ]}])
        {[ "total" := JInt 1;
           "hits" := JArr [JObj {[ "videos" :=
              JObj {[ "medium" := Sample.rendition "http://cdn/b" ]} ]}] ]}
        {[ "videos" := JObj {[ "medium" := Sample.rendition "http://cdn/b" ]} ]}
        {[ "medium" := Sample.rendition "http://cdn/b" ]}
        []
        (conj eq_refl eq_refl) eq_refl eq_refl eq_refl)).
    reflexivity.
  - apply (proj1 (proj2 (px_search_video_partial "k" "void" Sample.fresh
        (Sample.page [Sample.hit JNull JNull])
        {[ "total" := JInt 1; "hits" := JArr [Sample.hit JNull JNull] ]}
        {[ "videos" := JObj {[ "large" := JNull; "medium" := JNull ]} ]}
        {[ "large" := JNull; "medium" := JNull ]}
        []
        (conj eq_refl eq_refl) eq_refl eq_refl eq_refl))); reflexivity.
Defined.

Lemma no_results_iff_no_hits_witness :
  fst (px_search_video "k" "nothing" (snd Sample.after_one)) =
    Raise (NoResults "nothing") ∧
  run [("wide", 5%Q, "a.mp4"); ("nothing", 5%Q, "n.mp4"); ("tall", 10%Q, "b.mp4")]
      Sample.fresh =
    (Raise (NoResults "nothing"),
     sent (search_request "k" "nothing") (snd Sample.after_one)).
Proof.
  pose proof (no_results_iff_no_hits "k" "nothing" (snd Sample.after_one)
    (Sample.page [])
    {[ "total" := JInt 0; "hits" := JArr [] ]}
    (conj eq_refl eq_refl) eq_refl (or_intror (ex_intro _ [] eq_refl))) as [Hiff Hrun].
  split.
  - apply Hiff. right. reflexivity.
  - apply (Hrun (or_intror eq_refl) Sample.fresh Sample.fresh
             [("wide", 5%Q, "a.mp4")] (fst Sample.after_one)); reflexivity.
Defined.

(** ** The clip processor *)

Lemma Qltb_false a b : (b <= a)%Q → Qltb a b = false.
Proof. intros H. unfold Qltb. by rewrite (proj2 (Qle_bool_iff b a) H). Qed.






(** [process] reads the disk and leaves the world as it is. *)
Lemma process_world fp dur w r w' : process fp dur w = (r, w') → w' = w.
Proof.
  unfold process, bind, lift, VideoFileClip, ret.
  repeat case_match; intros; simplify_eq; done.
Qed.

Lemma process_returns fp dur w c w' :
  process fp dur w = (Ok c, w') →
  v_file c = fp ∧ ∃ i, fs w !! fp = Some (PVideo i).
Proof.
  unfold process, bind, lift, VideoFileClip, ret.
  destruct (fs w !! fp) as [[ | i | | ]|] eqn:Hfs; try discriminate.
  unfold subclip, resize_step, resize_height, resize_width, rbind.
  repeat case_match; intros; simplify_eq; simpl; eauto.
Qed.






(** ** The loop over the segments *)

Lemma fetch_segment_returns key seg w c w' :
  fetch_segment key seg w = (Ok c, w') →
  processed_from seg c ∧ is_Some (fs w' !! joinpath ASSETS seg.2).
Proof.
  destruct seg as [[q dur] fname]. unfold fetch_segment, bind. simpl.
  destruct (px_search_video key q w) as [[url|e] w1]; [|discriminate].
  destruct (download url (joinpath ASSETS fname) w1) as [[[]|e] w2]; [|discriminate].
  intros Hp. pose proof (process_world _ _ _ _ _ Hp) as ->.
  split; [by exists w2|].
  destruct (process_returns _ _ _ _ _ Hp) as (_ & i & Hi). by rewrite Hi.
Qed.

(** A run of the loop that comes back appended one processed clip per
    segment, in the table's order. *)
Lemma fetch_all_returns key segs acc w clips w' :
  fetch_all key segs acc w = (Ok clips, w') →
  ∃ new, clips = acc ++ new ∧ Forall2 processed_from segs new.
Proof.
  revert acc w. induction segs as [|seg segs IH]; intros acc w; simpl.
  - intros [= <- <-]. exists []. split; [by rewrite app_nil_r | constructor].
  - unfold bind. destruct (fetch_segment key seg w) as [[c|e] w1] eqn:Hseg;
      [|discriminate].
    intros Hrest. destruct (IH _ _ Hrest) as (new & -> & Hall).
    exists (c :: new). split; [by rewrite <- app_assoc|].
    constructor; [|done]. by destruct (fetch_segment_returns _ _ _ _ _ Hseg).
Qed.






(** ** The run as a whole *)

(** The stages a run went through when it comes back with a video. *)
Lemma run_returns segs w video w' :
  run segs w = (Ok video, w') →
  ∃ key w1 clips w2 v0 audios w3,
    resolve_API_KEY w = (Ok key, w1) ∧
    fetch_all key segs [] w1 = (Ok clips, w2) ∧
    concatenate_videoclips clips = Ok v0 ∧
    load_audios w2 = (Ok audios, w3) ∧
    video = mix audios v0 ∧
    write_videofile out 30 video w3 = (Ok tt, w').
Proof.
  unfold run. unfold bind at 1.
  destruct (resolve_API_KEY w) as [[key|e] w1] eqn:Hkey; [|discriminate].
  unfold bind at 1.
  destruct (fetch_all key segs [] w1) as [[clips|e] w2] eqn:Hfetch; [|discriminate].
  unfold bind at 1, lift at 1.
  destruct (concatenate_videoclips clips) as [v0|e] eqn:Hcat; [|discriminate].
  unfold bind at 1.
  destruct (load_audios w2) as [[audios|e] w3] eqn:Haud; [|discriminate].
  unfold bind at 1.
  destruct (write_videofile out 30 (mix audios v0) w3) as [[[]|e] w4] eqn:Hw;
    [|discriminate].
  intros [= <- <-]. exists key, w1, clips, w2, v0, audios, w3. done.
Qed.



(** ** Requests and files *)

(** Whatever comes of it, [px_search_video] issues its one request and
    touches nothing else. *)
Lemma px_search_video_world key q w :
  snd (px_search_video key q w) = sent (search_request key q) w.
Proof.
  unfold px_search_video, bind, requests.get, requests.raise_for_status,
    requests.json, lift, raise, ret.
  repeat case_match; simplify_eq; reflexivity.
Qed.

Lemma download_existing url dst w :
  is_Some (fs w !! dst) → download url dst w = (Ok tt, w).
Proof.
  intros Hdst. unfold download, bind, os.exists_.
  by rewrite bool_decide_eq_true_2.
Qed.

(** [download] either leaves the world alone, or issues one request, and
    then may write the file it was asked for. *)
Lemma download_world url dst w :
  snd (download url dst w) = w ∨
  ∃ u, fs w !! dst = None ∧
       (snd (download url dst w) = sent (download_request u) w ∨
        ∃ d, snd (download url dst w) =
             set_fs (insert dst d) (sent (download_request u) w)).
Proof.
  unfold download, bind, os.exists_. case_bool_decide as Hdst; [by left|].
  assert (fs w !! dst = None) as Hnone.
  { destruct (fs w !! dst) eqn:E; [|done]. exfalso. apply Hdst. by eexists. }
  destruct url as [| | | |u| |]; try by left.
  right. exists u. split; [done|].
  unfold requests.get, requests.raise_for_status, os.write, raise, ret.
  destruct (net w (download_request u)) as [r|]; [|by left].
  destruct ((400 <=? status_code r) && (status_code r <? 600)); [by left|].
  right. by eexists.
Qed.

(** The world after one turn of the loop: the search request went out, then
    [download] did its part. *)
Lemma fetch_segment_world key q dur fname w :
  snd (fetch_segment key (q, dur, fname) w) = sent (search_request key q) w ∨
  ∃ url, snd (fetch_segment key (q, dur, fname) w) =
         snd (download url (joinpath ASSETS fname) (sent (search_request key q) w)).
Proof.
  unfold fetch_segment, bind.
  pose proof (px_search_video_world key q w) as Hpx.
  destruct (px_search_video key q w) as [[url|e] w1]; simpl in Hpx; subst w1;
    [|by left].
  right. exists url.
  destruct (download url (joinpath ASSETS fname) (sent (search_request key q) w))
    as [[[]|e] w2]; [|done].
  destruct (process (joinpath ASSETS fname) dur w2) as [r w3] eqn:Hp.
  pose proof (process_world _ _ _ _ _ Hp) as ->. by destruct r.
Qed.

(** With the asset on disk, a turn of the loop issues the search request
    and nothing else. *)
Lemma fetch_segment_cached key q dur fname w :
  is_Some (fs w !! joinpath ASSETS fname) →
  snd (fetch_segment key (q, dur, fname) w) = sent (search_request key q) w.
Proof.
  intros Hfp. destruct (fetch_segment_world key q dur fname w) as [H | [url H]];
    [done|].
  rewrite H. by rewrite download_existing.
Qed.

(** The requests of one turn: the search first, then at most one download. *)
Lemma fetch_segment_log key q dur fname w :
  ∃ dl, log (snd (fetch_segment key (q, dur, fname) w)) =
          log w ++ search_request key q :: dl ∧
        (dl = [] ∨ ∃ u, dl = [download_request u]).
Proof.
  destruct (fetch_segment_world key q dur fname w) as [H | [url H]].
  - exists []. rewrite H. split; [done | by left].
  - rewrite H.
    destruct (download_world url (joinpath ASSETS fname)
                (sent (search_request key q) w)) as [Hd | (u & _ & [Hd | [d Hd]])];
      rewrite Hd; simpl.
    + exists []. split; [done | by left].
    + exists [download_request u]. split; [by rewrite <- app_assoc | eauto].
    + exists [download_request u]. split; [by rewrite <- app_assoc | eauto].
Qed.

Lemma fetch_segment_keeps key seg w :
  keeps_files w (snd (fetch_segment key seg w)).
Proof.
  destruct seg as [[q dur] fname]. intros p Hp.
  destruct (fetch_segment_world key q dur fname w) as [H | [url H]]; rewrite H;
    [done|].
  destruct (download_world url (joinpath ASSETS fname)
              (sent (search_request key q) w)) as [Hd | (u & _ & [Hd | [d Hd]])];
    rewrite Hd; simpl; try done.
  destruct (decide (joinpath ASSETS fname = p)) as [-> | Hne].
  - rewrite lookup_insert_eq. by eexists.
  - by rewrite lookup_insert_ne.
Qed.

Lemma fetch_all_keeps key segs acc w :
  keeps_files w (snd (fetch_all key segs acc w)).
Proof.
  revert acc w. induction segs as [|seg segs IH]; intros acc w; simpl;
    [by intros p Hp|].
  unfold bind. pose proof (fetch_segment_keeps key seg w) as Hseg.
  destruct (fetch_segment key seg w) as [[c|e] w1]; simpl in Hseg; [|done].
  intros p Hp. by apply IH, Hseg.
Qed.

Lemma fetch_all_assets key segs acc w clips w' :
  fetch_all key segs acc w = (Ok clips, w') →
  Forall (fun seg : Segment => is_Some (fs w' !! joinpath ASSETS seg.2)) segs.
Proof.
  revert acc w. induction segs as [|seg segs IH]; intros acc w; simpl; [by constructor|].
  unfold bind. destruct (fetch_segment key seg w) as [[c|e] w1] eqn:Hseg;
    [|discriminate].
  intros Hrest. constructor; [|by eapply IH].
  destruct (fetch_segment_returns _ _ _ _ _ Hseg) as [_ Hfp].
  pose proof (fetch_all_keeps key segs (acc ++ [c]) w1) as Hkeep.
  rewrite Hrest in Hkeep. by apply Hkeep.
Qed.

Lemma downloads_app l1 l2 : downloads (l1 ++ l2) = downloads l1 ++ downloads l2.
Proof. apply List.filter_app. Qed.

Lemma searches_app l1 l2 : searches (l1 ++ l2) = searches l1 ++ searches l2.
Proof. apply List.filter_app. Qed.

(** With every asset on disk, the loop asks for no download, however far
    it gets, and writes nothing. *)
Lemma fetch_all_cached key segs acc w :
  Forall (fun seg : Segment => is_Some (fs w !! joinpath ASSETS seg.2)) segs →
  downloads (log (snd (fetch_all key segs acc w))) = downloads (log w) ∧
  fs (snd (fetch_all key segs acc w)) = fs w.
Proof.
  revert acc w. induction segs as [|seg segs IH]; intros acc w Hall; simpl; [done|].
  inversion Hall as [|? ? Hfp Hrest]; subst.
  destruct seg as [[q dur] fname]. simpl in Hfp.
  pose proof (fetch_segment_cached key q dur fname w Hfp) as Hw.
  unfold bind. destruct (fetch_segment key (q, dur, fname) w) as [[c|e] w1];
    simpl in Hw; subst w1; simpl.
  - destruct (IH (acc ++ [c]) (sent (search_request key q) w)) as [Hlog Hfs];
      [done|].
    rewrite Hlog, Hfs. simpl. rewrite downloads_app. simpl.
    by rewrite app_nil_r.
  - rewrite downloads_app. simpl. by rewrite app_nil_r.
Qed.

(** Every turn of a loop that comes back issued its search request. *)
Lemma fetch_all_searches key segs acc w clips w' :
  fetch_all key segs acc w = (Ok clips, w') →
  searches (log w') =
    searches (log w) ++ map (fun seg : Segment => search_request key seg.1.1) segs.
Proof.
  revert acc w. induction segs as [|seg segs IH]; intros acc w; simpl.
  - intros [= _ <-]. by rewrite app_nil_r.
  - destruct seg as [[q dur] fname].
    destruct (fetch_segment_log key q dur fname w) as (dl & Hlog & Hdl).
    unfold bind. destruct (fetch_segment key (q, dur, fname) w) as [[c|e] w1];
      [|discriminate].
    simpl in Hlog. intros Hrest. rewrite (IH _ _ Hrest), Hlog.
    rewrite searches_app. simpl. rewrite <- app_assoc. do 2 f_equal.
    by destruct Hdl as [-> | [u ->]].
Qed.

Lemma resolve_API_KEY_world w :
  fs (snd (resolve_API_KEY w)) = fs w ∧ log (snd (resolve_API_KEY w)) = log w.
Proof.
  unfold resolve_API_KEY, bind, os.getenv, os.input, ret.
  repeat case_match; simplify_eq; done.
Qed.

Lemma load_audios_world w : snd (load_audios w) = w.
Proof.
  unfold load_audios, bind, os.exists_, AudioFileClip, ret.
  repeat case_match; simplify_eq; done.
Qed.

Lemma write_videofile_log path fps v w :
  log (snd (write_videofile path fps v w)) = log w.
Proof. unfold write_videofile, os.write. by destruct (ffmpeg_ok w). Qed.

(** A run over a disk that holds every asset asks for no download. *)
Lemma run_cached segs w :
  Forall (fun seg : Segment => is_Some (fs w !! joinpath ASSETS seg.2)) segs →
  downloads (log (snd (run segs w))) = downloads (log w).
Proof.
  intros Hall. unfold run. unfold bind at 1.
  destruct (resolve_API_KEY_world w) as [Hfs1 Hlog1].
  destruct (resolve_API_KEY w) as [[key|e] w1]; simpl in Hfs1, Hlog1;
    [|simpl; by rewrite Hlog1].
  unfold bind at 1.
  destruct (fetch_all_cached key segs [] w1) as [Hlog2 _].
  { by rewrite Hfs1. }
  rewrite Hlog1 in Hlog2.
  destruct (fetch_all key segs [] w1) as [[clips|e] w2]; simpl in Hlog2; [|done].
  unfold bind at 1, lift at 1.
  destruct (concatenate_videoclips clips) as [v0|e]; [|done].
  unfold bind at 1. pose proof (load_audios_world w2) as Hw3.
  destruct (load_audios w2) as [[audios|e] w3]; simpl in Hw3; subst w3; [|done].
  unfold bind at 1.
  pose proof (write_videofile_log out 30 (mix audios v0) w2) as Hlog4.
  destruct (write_videofile out 30 (mix audios v0) w2) as [[[]|e] w4];
    simpl in Hlog4 |- *; by rewrite Hlog4.
Qed.

Lemma write_videofile_keeps path fps v w :
  keeps_files w (snd (write_videofile path fps v w)).
Proof.
  unfold write_videofile, os.write. destruct (ffmpeg_ok w); [|by intros p Hp].
  intros p Hp. simpl. destruct (decide (path = p)) as [-> | Hne].
  - rewrite lookup_insert_eq. by eexists.
  - by rewrite lookup_insert_ne.
Qed.

(** After a run that came back, every asset of the table is on disk. *)
Lemma run_leaves_assets segs w video w' :
  run segs w = (Ok video, w') →
  Forall (fun seg : Segment => is_Some (fs w' !! joinpath ASSETS seg.2)) segs.
Proof.
  intros Hrun.
  destruct (run_returns _ _ _ _ Hrun)
    as (key & w1 & clips & w2 & v0 & audios & w3 & _ & Hfetch & _ & Haud & _ & Hwr).
  pose proof (load_audios_world w2) as Hw3. rewrite Haud in Hw3. simpl in Hw3.
  subst w3.
  pose proof (write_videofile_keeps out 30 video w2) as Hkeep.
  rewrite Hwr in Hkeep. simpl in Hkeep.
  eapply Forall_impl; [exact (fetch_all_assets _ _ _ _ _ _ Hfetch)|].
  intros seg Hseg. by apply Hkeep.
Qed.

(** C5: [download] on a destination that exists returns at once, with no
    request issued and no file touched; and a second run over a disk that
    kept the assets of a first full run asks for no download. *)
Theorem download_skips_existing :
  (∀ url dst w, is_Some (fs w !! dst) → download url dst w = (Ok tt, w)) ∧
  (∀ segs w video w1 w2,
      run segs w = (Ok video, w1) →
      keeps_files w1 w2 →
      downloads (log (snd (run segs w2))) = downloads (log w2)).
Proof.
  split; [exact download_existing|].
  intros segs w video w1 w2 Hrun Hkeep. apply run_cached.
  eapply Forall_impl; [exact (run_leaves_assets _ _ _ _ Hrun)|].
  intros seg Hseg. by apply Hkeep.
Qed.

Lemma download_skips_existing_witness :
  download (JStr "http://cdn/a") "assets/a.mp4" Sample.after_run =
    (Ok tt, Sample.after_run) ∧
  downloads (log (snd (run Sample.segs Sample.after_run))) =
    [download_request "http://cdn/a"; download_request "http://cdn/b"].
Proof.
  split.
  - apply (proj1 download_skips_existing). by eexists.
  - apply (proj2 download_skips_existing Sample.segs Sample.fresh Sample.exported
             Sample.after_run Sample.after_run).
    + reflexivity.
    + by intros p Hp.
Defined.

(** C9: a turn of the loop issues its search request before anything looks
    at the disk.  With the asset already there the search is the turn's only
    request; in general it is the turn's first; and a loop that comes back
    has searched once for every segment, in order. *)
Theorem search_runs_despite_cache key :
  (∀ q dur fname w,
      is_Some (fs w !! joinpath ASSETS fname) →
      snd (fetch_segment key (q, dur, fname) w) = sent (search_request key q) w) ∧
  (∀ q dur fname w,
      ∃ dl, log (snd (fetch_segment key (q, dur, fname) w)) =
              log w ++ search_request key q :: dl ∧
            (dl = [] ∨ ∃ u, dl = [download_request u])) ∧
  (∀ segs acc w clips w',
      fetch_all key segs acc w = (Ok clips, w') →
      searches (log w') =
        searches (log w) ++
        map (fun seg : Segment => search_request key seg.1.1) segs).
Proof.
  split; [exact (fetch_segment_cached key)|].
  split; [exact (fetch_segment_log key) | exact (fetch_all_searches key)].
Qed.

Lemma search_runs_despite_cache_witness :
  is_Some (fs Sample.after_run !! "assets/a.mp4") ∧
  log (snd (fetch_segment "k" ("wide", 5%Q, "a.mp4") Sample.after_run)) =
    log Sample.after_run ++ [search_request "k" "wide"] ∧
  searches (log (snd (run Sample.segs Sample.after_run))) =
    searches (log Sample.after_run) ++
    [search_request "k" "wide"; search_request "k" "tall"].
Proof.
  destruct (search_runs_despite_cache "k") as (Hcached & _ & Hall).
  split; [by eexists|]. split.
  - rewrite (Hcached "wide" 5%Q "a.mp4" Sample.after_run); [reflexivity | by eexists].
  - change (snd (run Sample.segs Sample.after_run)) with
      (snd (write_videofile out 30 Sample.exported
              (snd (fetch_all "k" Sample.segs [] Sample.after_run)))).
    rewrite write_videofile_log.
    apply (Hall Sample.segs [] Sample.after_run
             (Sample.again).1 (Sample.again).2).
    reflexivity.
Defined.

(** ** The credential resolver *)

Lemma lstrip_spec s :
  ∃ a, s = a +:+ lstrip s ∧ blank a = true ∧ starts_space (lstrip s) = false.
Proof.
  induction s as [|c s (a & Hs & Ha & Hl)]; simpl.
  - by exists "".
  - destruct (isspace c) eqn:Hc.
    + exists (String c a). split; [|split; [simpl; by rewrite Hc, Ha | exact Hl]].
      change (String c s = String c (a +:+ lstrip s)). by f_equal.
    + exists "". simpl. by rewrite Hc.
Qed.

Lemma rstrip_spec s :
  ∃ b, s = rstrip s +:+ b ∧ blank b = true ∧ ends_space (rstrip s) = false.
Proof.
  induction s as [|c s (b & Hs & Hb & He)]; simpl.
  - by exists "".
  - destruct (rstrip s) as [|d t] eqn:Hr.
    + change (s = b) in Hs. subst b. destruct (isspace c) eqn:Hc.
      * exists (String c s). simpl. by rewrite Hc, Hb.
      * exists s. simpl. by rewrite Hc.
    + exists b. split; [|done].
      change (String c s = String c (String d t +:+ b)). by f_equal.
Qed.

Lemma rstrip_starts s : starts_space s = false → starts_space (rstrip s) = false.
Proof.
  destruct s as [|c s]; [done|]. simpl. intros Hc.
  destruct (rstrip s); [by rewrite Hc | done].
Qed.

Lemma blank_app a b : blank (a +:+ b) = blank a && blank b.
Proof.
  induction a as [|c a IH]; simpl; [done|]. by rewrite IH, andb_assoc.
Qed.

Lemma lstrip_blank s : blank s = true → lstrip s = "".
Proof.
  induction s as [|c s IH]; simpl; [done|].
  intros [Hc Hs]%andb_true_iff. rewrite Hc. by apply IH.
Qed.

(** [strip] takes white space off both ends and nothing else. *)
Lemma strip_spec s :
  (∃ a b, s = a +:+ strip s +:+ b ∧ blank a = true ∧ blank b = true) ∧
  starts_space (strip s) = false ∧ ends_space (strip s) = false ∧
  (strip s = "" ↔ blank s = true).
Proof.
  unfold strip.
  destruct (lstrip_spec s) as (a & Hs & Ha & Hl).
  destruct (rstrip_spec (lstrip s)) as (b & Hr & Hb & He).
  split; [|split; [|split]].
  - exists a, b. split; [|done]. rewrite <- Hr. exact Hs.
  - by apply rstrip_starts.
  - exact He.
  - split.
    + intros Hempty. rewrite Hempty in Hr. rewrite Hs, Hr.
      by rewrite !blank_app, Ha, Hb.
    + intros Hblank. by rewrite (lstrip_blank _ Hblank).
Qed.

(** C8, as the spec words it, does not hold: with no key in the
    environment and a blank line typed, the key is the empty string. *)
Lemma blank_key_counterexample :
  ¬ (∀ w key w', resolve_API_KEY w = (Ok key, w') → key ≠ "").
Proof.
  intros H.
  apply (H Sample.blank_typed "" (set_stdin [] Sample.blank_typed)); reflexivity.
Qed.

(** C8, amended: the key is the environment variable's value when that is
    set and not empty, and otherwise the typed line with the white space at
    its ends taken off; nothing checks that it is not empty, and it is empty
    exactly when the typed line is blank. *)
Theorem resolve_API_KEY_value w :
  (∀ s, environ w !! "PIXABAY_KEY" = Some s → s ≠ "" →
        resolve_API_KEY w = (Ok s, w)) ∧
  (∀ line rest, no_key_in_environ w → stdin w = line :: rest →
        resolve_API_KEY w = (Ok (strip line), set_stdin rest w) ∧
        (∃ a b, line = a +:+ strip line +:+ b ∧ blank a = true ∧ blank b = true) ∧
        starts_space (strip line) = false ∧ ends_space (strip line) = false ∧
        (strip line = "" ↔ blank line = true)).
Proof.
  split.
  - intros s Hs Hne. unfold resolve_API_KEY, bind, os.getenv. rewrite Hs.
    by destruct s.
  - intros line rest Hno Hin. split; [|apply strip_spec].
    unfold resolve_API_KEY, bind, os.getenv, os.input, ret.
    destruct Hno as [-> | ->]; by rewrite Hin.
Qed.

Lemma resolve_API_KEY_value_witness :
  resolve_API_KEY Sample.fresh = (Ok "k", Sample.fresh) ∧
  resolve_API_KEY Sample.blank_typed = (Ok "", set_stdin [] Sample.blank_typed).
Proof.
  split.
  - apply (proj1 (resolve_API_KEY_value Sample.fresh)); [reflexivity | discriminate].
  - apply (proj2 (resolve_API_KEY_value Sample.blank_typed) "   " []);
      [by left | reflexivity].
Defined.

(** ** The audio stage *)


(** [AudioFileClip] looks at the one file it is given. *)
Lemma AudioFileClip_file p w1 w2 :
  fs w1 !! p = fs w2 !! p → fst (AudioFileClip p w1) = fst (AudioFileClip p w2).
Proof.
  intros H. unfold AudioFileClip. rewrite H. repeat case_match; done.
Qed.





(** The assets' paths are apart from the two audio files' names. *)
Lemma joinpath_ASSETS_head fname :
  ∃ rest, joinpath ASSETS fname = String "a" rest ∨
          joinpath ASSETS fname = String "/" rest.
Proof.
  destruct fname as [|c s]; [by eexists; left|].
  unfold joinpath.
  destruct (Ascii.ascii_dec c "/") as [-> | Hc].
  - eexists. by right.
  - eexists. left.
    assert (match c with
            | "/"%char => String c s
            | _ => ASSETS +:+ "/" +:+ String c s
            end = ASSETS +:+ "/" +:+ String c s) as ->; [|reflexivity].
    destruct c as [[] [] [] [] [] [] [] []]; try reflexivity. by destruct Hc.
Qed.

Lemma fetch_segment_other key seg w p :
  (∀ fname, joinpath ASSETS fname ≠ p) →
  fs (snd (fetch_segment key seg w)) !! p = fs w !! p.
Proof.
  intros Hp. destruct seg as [[q dur] fname].
  destruct (fetch_segment_world key q dur fname w) as [H | [url H]]; rewrite H;
    [done|].
  destruct (download_world url (joinpath ASSETS fname)
              (sent (search_request key q) w)) as [Hd | (u & _ & [Hd | [d Hd]])];
    rewrite Hd; simpl; try done.
  by rewrite lookup_insert_ne.
Qed.

Lemma fetch_all_other key segs acc w p :
  (∀ fname, joinpath ASSETS fname ≠ p) →
  fs (snd (fetch_all key segs acc w)) !! p = fs w !! p.
Proof.
  intros Hp. revert acc w. induction segs as [|seg segs IH]; intros acc w; simpl;
    [done|].
  unfold bind. pose proof (fetch_segment_other key seg w p Hp) as Hseg.
  destruct (fetch_segment key seg w) as [[c|e] w1]; simpl in Hseg; [|done].
  by rewrite IH.
Qed.







(** * Further properties of the script *)

(** ** Failures of the search *)

(** A search that raises ends the run there, in the state the search left. *)
Lemma run_stops_at_search key q e w wq wi w0 pre clips dur fname rest :
  px_search_video key q w = (Raise e, wq) →
  resolve_API_KEY wi = (Ok key, w0) →
  fetch_all key pre [] w0 = (Ok clips, w) →
  run (pre ++ (q, dur, fname) :: rest) wi = (Raise e, wq).
Proof.
  intros Hpx Hkey Hpre.
  unfold run. unfold bind at 1. rewrite Hkey.
  unfold bind at 1. rewrite fetch_all_app. unfold bind at 1. rewrite Hpre.
  simpl. unfold bind at 1. unfold fetch_segment. unfold bind at 1.
  by rewrite Hpx.
Qed.

(** X1: the ways a search fails before its body is looked at.  No answer
    raises the requests error; an error status raises [HTTPError] with that
    status whatever the body holds; a body that is not JSON raises the
    decoding error.  Each time the run stops in that turn, with the search
    as the last request and the disk as the turn found it. *)
Theorem search_failure_stops_run key q w :
  (net w (search_request key q) = None →
     px_search_video key q w =
       (Raise RequestException, sent (search_request key q) w)) ∧
  (∀ resp, net w (search_request key q) = Some resp →
     (400 <=? status_code resp) && (status_code resp <? 600) = true →
     px_search_video key q w =
       (Raise (HTTPError (status_code resp)), sent (search_request key q) w)) ∧
  (∀ resp, answered w (search_request key q) resp →
     (∀ j, body resp ≠ PJson j) →
     px_search_video key q w =
       (Raise JSONDecodeError, sent (search_request key q) w)) ∧
  (∀ e wi w0 pre clips dur fname rest,
     fst (px_search_video key q w) = Raise e →
     resolve_API_KEY wi = (Ok key, w0) →
     fetch_all key pre [] w0 = (Ok clips, w) →
     run (pre ++ (q, dur, fname) :: rest) wi =
       (Raise e, sent (search_request key q) w)).
Proof.
  split; [|split; [|split]].
  - intros Hnet. unfold px_search_video, bind, requests.get. by rewrite Hnet.
  - intros resp Hnet Hst.
    unfold px_search_video, bind, requests.get, requests.raise_for_status, raise.
    by rewrite Hnet, Hst.
  - intros resp [Hnet Hst] Hbody.
    unfold px_search_video, bind, requests.get, requests.raise_for_status,
      requests.json, lift, ret.
    rewrite Hnet, Hst. destruct (body resp) as [j| | |]; try done.
    by destruct (Hbody j).
  - intros e wi w0 pre clips dur fname rest He Hkey Hpre.
    apply (run_stops_at_search key q e w _ wi w0 pre clips); [|done|done].
    pose proof (px_search_video_world key q w) as Hw.
    destruct (px_search_video key q w) as [r wq]. simpl in *. by subst.
Qed.

(** ** The downloader *)



(** ** What a run does to the disk *)






(** ** The requests of a run *)

Lemma requests_split l :
  length l = (length (searches l) + length (downloads l))%nat.
Proof.
  induction l as [|r l IH]; simpl; [done|].
  destruct (r_stream r); simpl; lia.
Qed.

(** The requests of the loop, however far it gets: the searches of the
    first [n] segments, each followed by at most one download. *)
Lemma fetch_all_requests key segs acc w :
  ∃ n new,
    (n ≤ length segs)%nat ∧
    log (snd (fetch_all key segs acc w)) = log w ++ new ∧
    searches new = map (fun seg : Segment => search_request key seg.1.1) (take n segs) ∧
    (length (downloads new) ≤ n)%nat ∧
    Forall (fun r => ∃ u, r = download_request u) (downloads new).
Proof.
  revert acc w. induction segs as [|seg segs IH]; intros acc w; simpl.
  - exists 0%nat, []. rewrite app_nil_r.
    split; [lia|]. split; [done|]. split; [done|]. split; [simpl; lia | constructor].
  - destruct seg as [[q dur] fname].
    destruct (fetch_segment_log key q dur fname w) as (dl & Hlog & Hdl).
    assert (searches dl = [] ∧ downloads dl = dl ∧ (length dl ≤ 1)%nat ∧
            Forall (fun r => ∃ u, r = download_request u) dl)
      as (Hs & Hd & Hlen & Hall).
    { destruct Hdl as [-> | [u ->]]; simpl; repeat split; try lia;
        repeat constructor. by exists u. }
    unfold bind.
    destruct (fetch_segment key (q, dur, fname) w) as [[c|e] w1]; simpl in Hlog.
    + destruct (IH (acc ++ [c]) w1) as (n & new & Hn & Hlog' & Hs' & Hd' & Hall').
      exists (S n), (search_request key q :: dl ++ new).
      split; [lia|]. split; [by rewrite Hlog', Hlog, <- app_assoc|].
      split; [simpl; by rewrite searches_app, Hs, Hs'|].
      simpl. rewrite downloads_app, Hd, length_app.
      split; [lia|]. by apply Forall_app.
    + exists 1%nat, (search_request key q :: dl).
      split; [simpl; lia|]. split; [done|].
      split; [simpl; rewrite Hs; by destruct segs|].
      simpl. rewrite Hd. split; [lia | done].
Qed.

(** The requests of a run, however it ends. *)
Lemma run_requests_shape segs w :
  ∃ key n new,
    (n ≤ length segs)%nat ∧
    log (snd (run segs w)) = log w ++ new ∧
    searches new = map (fun seg : Segment => search_request key seg.1.1) (take n segs) ∧
    (length (downloads new) ≤ n)%nat ∧
    Forall (fun r => ∃ u, r = download_request u) (downloads new) ∧
    (new ≠ [] → fst (resolve_API_KEY w) = Ok key).
Proof.
  assert (Hnone : ∃ key n new,
    (n ≤ length segs)%nat ∧ log w = log w ++ new ∧
    searches new = map (fun seg : Segment => search_request key seg.1.1) (take n segs) ∧
    (length (downloads new) ≤ n)%nat ∧
    Forall (fun r => ∃ u, r = download_request u) (downloads new) ∧
    (new ≠ [] → fst (resolve_API_KEY w) = Ok key)).
  { exists "", 0%nat, []. rewrite app_nil_r, take_0. simpl.
    repeat split; try lia; [constructor | done]. }
  unfold run. unfold bind at 1.
  pose proof (resolve_API_KEY_world w) as [_ Hlog1].
  destruct (resolve_API_KEY w) as [[key|e] w1] eqn:Hkey; simpl in Hlog1;
    [|simpl; by rewrite Hlog1].
  clear Hnone.
  destruct (fetch_all_requests key segs [] w1)
    as (n & new & Hn & Hlog2 & Hs & Hd & Hall).
  rewrite Hlog1 in Hlog2.
  exists key, n, new.
  split; [done|]. split; [|by repeat split].
  unfold bind at 1.
  destruct (fetch_all key segs [] w1) as [[clips|e'] w2]; simpl in Hlog2; [|done].
  unfold bind at 1, lift at 1.
  destruct (concatenate_videoclips clips) as [v0|e']; [|done].
  unfold bind at 1. pose proof (load_audios_world w2) as Hw3.
  destruct (load_audios w2) as [[audios|e'] w3]; simpl in Hw3; subst w3; [|done].
  unfold bind at 1.
  pose proof (write_videofile_log out 30 (mix audios v0) w2) as Hlog4.
  destruct (write_videofile out 30 (mix audios v0) w2) as [[[]|e'] w4];
    simpl in Hlog4 |- *; by rewrite Hlog4.
Qed.

(** X4: the requests a run issues, however it ends.  They are the searches
    of the first [n] segments of the table, in order and with the resolved
    key, safe search on and a page of three, and at most [n] streamed
    downloads: never more than two requests per segment, and none when the
    key cannot be resolved. *)
Theorem run_requests segs w :
  ∃ key n new,
    (n ≤ length segs)%nat ∧
    log (snd (run segs w)) = log w ++ new ∧
    searches new = map (fun seg : Segment => search_request key seg.1.1) (take n segs) ∧
    (length (downloads new) ≤ n)%nat ∧
    Forall (fun r => ∃ u, r = download_request u) (downloads new) ∧
    (length new ≤ 2 * length segs)%nat ∧
    (new ≠ [] → fst (resolve_API_KEY w) = Ok key).
Proof.
  destruct (run_requests_shape segs w)
    as (key & n & new & Hn & Hlog & Hs & Hd & Hall & Hkey).
  exists key, n, new. repeat split; try done.
  rewrite (requests_split new), Hs, length_map, length_take. lia.
Qed.

(** ** One turn of the loop *)

(** [process] depends on the disk alone. *)
Lemma process_fs fp dur w1 w2 :
  fs w1 = fs w2 → fst (process fp dur w1) = fst (process fp dur w2).
Proof.
  intros H. unfold process, bind, VideoFileClip, lift, ret. rewrite H.
  destruct (fs w2 !! fp) as [[j|i|d|s]|]; try done.
  destruct (subclip 0 dur _) as [c1|e]; [|done].
  by destruct (resize_step c1).
Qed.








(** X6: with the asset on disk, the clip of a turn is the clip of the file
    that is there; what the search returned is dropped.  Changing a
    segment's query without removing its file leaves its clip as it was. *)
Theorem cached_segment_ignores_search key q dur fname w url :
  is_Some (fs w !! joinpath ASSETS fname) →
  fst (px_search_video key q w) = Ok url →
  fst (fetch_segment key (q, dur, fname) w) =
  fst (process (joinpath ASSETS fname) dur w).
Proof.
  intros Hfp Hpx. unfold fetch_segment, bind.
  pose proof (px_search_video_world key q w) as Hw1.
  destruct (px_search_video key q w) as [r w1]. simpl in Hpx, Hw1. subst r w1.
  rewrite download_existing by done.
  by apply process_fs.
Qed.

Lemma cached_segment_ignores_search_witness :
  fst (fetch_segment "k" ("tall", 5%Q, "a.mp4") Sample.after_run) =
  fst (fetch_segment "k" ("wide", 5%Q, "a.mp4") Sample.after_run).
Proof.
  rewrite (cached_segment_ignores_search "k" "tall" 5 "a.mp4" Sample.after_run
             (JStr "http://cdn/b")); [|by eexists | reflexivity].
  reflexivity.
Defined.



(** ** Sizes and lengths *)



Lemma subclip_duration c t_end c' :
  subclip 0 t_end c = Ok c' →
  v_duration c' = (trim_end (v_duration c) t_end - 0)%Q.
Proof.
  unfold subclip, subclip_times, trim_end. change (Qltb 0 0) with false. cbv iota.
  destruct (Qltb (v_duration c) 0); [discriminate|]. simpl.
  destruct (v_audio c) as [a|]; simpl.
  - destruct (a_subclip 0 t_end a); simpl; [|discriminate]. by intros [= <-].
  - by intros [= <-].
Qed.

Lemma resize_step_duration c c' :
  resize_step c = Ok c' → v_duration c' = v_duration c.
Proof.
  unfold resize_step, resize_height, resize_width.
  repeat case_match; intros; simplify_eq; done.
Qed.

(** A clip that [process] yields lasts the configured length. *)
Lemma process_duration fp dur w c w' :
  process fp dur w = (Ok c, w') → (0 <= dur)%Q → (v_duration c == dur)%Q.
Proof.
  unfold process, bind, lift, ret. intros Hp Hdur.
  destruct (VideoFileClip fp w) as [[c0|e] w0]; [|discriminate].
  destruct (subclip 0 dur c0) as [c1|e] eqn:Hsub; [|discriminate].
  destruct (resize_step c1) as [c2|e] eqn:Hres; [|discriminate].
  injection Hp as <- _. simpl.
  rewrite (resize_step_duration _ _ Hres), (subclip_duration _ _ _ Hsub).
  unfold trim_end. rewrite (Qltb_false dur 0 Hdur). ring.
Qed.

Lemma cumsum_last acc ds : (List.last (cumsum acc ds) 0 == acc + Qsum ds)%Q.
Proof.
  revert acc. induction ds as [|d ds IH]; intros acc.
  - simpl. ring.
  - change (cumsum acc (d :: ds)) with (acc :: cumsum (acc + d)%Q ds).
    assert (List.last (acc :: cumsum (acc + d)%Q ds) 0%Q =
            List.last (cumsum (acc + d)%Q ds) 0%Q) as ->.
    { by destruct ds. }
    rewrite IH. simpl. ring.
Qed.

Lemma concatenate_duration clips v :
  concatenate_videoclips clips = Ok v →
  (c_duration v == Qsum (map v_duration clips))%Q.
Proof.
  unfold concatenate_videoclips. destruct clips as [|c0 cs]; [discriminate|].
  intros [= <-].
  transitivity (0 + Qsum (map v_duration (c0 :: cs)))%Q;
    [exact (cumsum_last 0 (map v_duration (c0 :: cs))) | ring].
Qed.

Lemma mix_duration audios v : c_duration (mix audios v) = c_duration v.
Proof. by destruct audios. Qed.

Lemma processed_durations segs clips :
  Forall2 processed_from segs clips →
  Forall (fun seg : Segment => (0 <= seg.1.2)%Q) segs →
  (Qsum (map v_duration clips) == Qsum (durs segs))%Q.
Proof.
  induction 1 as [|seg c segs clips [w Hp] _ IH]; intros Hall; simpl; [reflexivity|].
  inversion Hall as [|? ? Hseg Hrest]; subst.
  rewrite (process_duration _ _ _ _ _ Hp Hseg), (IH Hrest). reflexivity.
Qed.

(** The timeline of a run lasts the sum of the configured lengths. *)
Lemma run_duration segs w video w' :
  run segs w = (Ok video, w') →
  Forall (fun seg : Segment => (0 <= seg.1.2)%Q) segs →
  (c_duration video == Qsum (durs segs))%Q.
Proof.
  intros Hrun Hall.
  destruct (run_returns _ _ _ _ Hrun)
    as (key & w1 & clips & w2 & v0 & audios & w3 & _ & Hfetch & Hcat & _ & -> & _).
  destruct (fetch_all_returns _ _ _ _ _ _ Hfetch) as (new & Hnew & Hproc).
  simpl in Hnew. subst new.
  rewrite mix_duration, (concatenate_duration _ _ Hcat).
  by apply processed_durations.
Qed.



(** X10: with the table of the script, a run that comes back has built a
    video of 60 seconds, as the header announces. *)
Theorem main_lasts_a_minute w video w' :
  main w = (Ok video, w') → (c_duration video == 60)%Q.
Proof.
  intros Hrun.
  rewrite (run_duration SEGMENTS w video w' Hrun).
  - reflexivity.
  - repeat constructor; discriminate.
Qed.

(** ** The export comes last *)

Lemma out_apart fname : joinpath ASSETS fname ≠ out.
Proof. destruct (joinpath_ASSETS_head fname) as [rest [-> | ->]]; discriminate. Qed.

(** X11: the output file is written by the last step only.  With an encoder
    that runs through, a run that raises, at whatever stage, leaves
    "final_video.mp4" as it was: absent, or the file of an earlier run. *)
Theorem failed_run_leaves_output segs w e :
  ffmpeg_ok w = true →
  fst (run segs w) = Raise e →
  fs (snd (run segs w)) !! out = fs w !! out.
Proof.
  intros _. destruct (run segs w) as [r w'] eqn:Hrun. simpl. intros ->.
  revert Hrun. unfold run. unfold bind at 1.
  pose proof (resolve_API_KEY_world w) as [Hfs1 _].
  destruct (resolve_API_KEY w) as [[key|e1] w1]; simpl in Hfs1;
    [|intros [= _ <-]; by rewrite Hfs1].
  unfold bind at 1.
  pose proof (fetch_all_other key segs [] w1 out out_apart) as Hfs2.
  rewrite Hfs1 in Hfs2.
  destruct (fetch_all key segs [] w1) as [[clips|e2] w2]; simpl in Hfs2;
    [|by intros [= _ <-]].
  unfold bind at 1, lift at 1.
  destruct (concatenate_videoclips clips) as [v0|e3]; [|by intros [= _ <-]].
  unfold bind at 1. pose proof (load_audios_world w2) as Hw3.
  destruct (load_audios w2) as [[audios|e4] w3]; simpl in Hw3; subst w3;
    [|by intros [= _ <-]].
  unfold bind, ret, write_videofile, os.write.
  destruct (ffmpeg_ok w2); [discriminate | by intros [= _ <-]].
Qed.

Lemma failed_run_leaves_output_witness :
  fs (snd (run [("wide", 5%Q, "a.mp4"); ("nothing", 5%Q, "n.mp4")]
             Sample.after_run)) !! out =
  fs Sample.after_run !! out.
Proof.
  apply (failed_run_leaves_output _ Sample.after_run (NoResults "nothing"));
    reflexivity.
Defined.

(** X14: an empty table gives no video: once the key is resolved the run
    raises at the concatenation, with no request issued and no file
    written. *)
Theorem empty_table_raises w key w1 :
  resolve_API_KEY w = (Ok key, w1) →
  run [] w = (Raise ValueError, w1).
Proof.
  intros Hkey. unfold run. unfold bind at 1. by rewrite Hkey.
Qed.

Lemma empty_table_raises_witness :
  run [] Sample.fresh = (Raise ValueError, Sample.fresh).
Proof. apply (empty_table_raises Sample.fresh "k"). reflexivity. Defined.

(** ** Which rendition is picked *)

(** X12: only the first hit counts.  Two answered searches whose first hits
    are the same yield the same result, whatever the later hits, the other
    fields of the response, the query and the key are: a first hit without
    a usable rendition is never passed over for the next one. *)
Theorem first_hit_only key q w resp key' q' w' resp'
    (dm dm' : gmap string json) h rest rest' :
  answered w (search_request key q) resp →
  answered w' (search_request key' q') resp' →
  body resp = PJson (JObj dm) → body resp' = PJson (JObj dm') →
  dm !! "hits" = Some (JArr (h :: rest)) →
  dm' !! "hits" = Some (JArr (h :: rest')) →
  fst (px_search_video key q w) = fst (px_search_video key' q' w').
Proof.
  intros Hans Hans' Hbody Hbody' Hh Hh'.
  rewrite (px_search_video_answered _ _ _ _ _ Hans Hbody).
  rewrite (px_search_video_answered _ _ _ _ _ Hans' Hbody').
  unfold pick_url. simpl. by rewrite Hh, Hh'.
Qed.

Lemma first_hit_only_witness :
  fst (px_search_video "k" "void" Sample.fresh) =
  fst (px_search_video "k" "void"
         (Sample.answering [Sample.hit JNull JNull;
                            Sample.hit (Sample.rendition "http://cdn/a") JNull])).
Proof.
  apply (first_hit_only "k" "void" Sample.fresh
           (Sample.page [Sample.hit JNull JNull])
           "k" "void"
           (Sample.answering [Sample.hit JNull JNull;
                              Sample.hit (Sample.rendition "http://cdn/a") JNull])
           (Sample.page [Sample.hit JNull JNull;
                         Sample.hit (Sample.rendition "http://cdn/a") JNull])
           {[ "total" := JInt 1; "hits" := JArr [Sample.hit JNull JNull] ]}
           {[ "total" := JInt 2;
              "hits" := JArr [Sample.hit JNull JNull;
                              Sample.hit (Sample.rendition "http://cdn/a") JNull] ]}
           (Sample.hit JNull JNull) []
           [Sample.hit (Sample.rendition "http://cdn/a") JNull]);
    try reflexivity; by split.
Defined.

(** X13: when the fallback to "medium" happens.  An empty "large" object is
    falsy like null, so "medium" is taken; a "large" object that holds
    something but no "url" raises [KeyError], and "medium" is not looked at
    even if it would do. *)
Theorem large_fallback_edges key q w resp
    (dm hm vm : gmap string json) (rest : list json) :
  answered w (search_request key q) resp →
  body resp = PJson (JObj dm) →
  dm !! "hits" = Some (JArr (JObj hm :: rest)) →
  hm !! "videos" = Some (JObj vm) →
  (∀ (mm : gmap string json) u,
      vm !! "large" = Some (JObj ∅) →
      vm !! "medium" = Some (JObj mm) → mm !! "url" = Some u →
      fst (px_search_video key q w) = Ok u) ∧
  (∀ (lm : gmap string json),
      vm !! "large" = Some (JObj lm) → lm ≠ ∅ → lm !! "url" = None →
      fst (px_search_video key q w) = Raise (KeyError "url")).
Proof.
  intros Hans Hbody Hh Hv.
  rewrite (px_search_video_answered _ _ _ _ _ Hans Hbody).
  rewrite (pick_url_first_hit q _ _ _ _ Hh Hv). simpl.
  split.
  - intros mm u Hl Hm Hu. rewrite Hl. simpl. unfold or_else. simpl.
    rewrite bool_decide_eq_true_2 by done. simpl.
    rewrite Hm. simpl. by rewrite Hu.
  - intros lm Hl Hne Hu. rewrite Hl. simpl. unfold or_else. simpl.
    rewrite bool_decide_eq_false_2 by done. simpl. by rewrite Hu.
Qed.

Lemma large_fallback_edges_witness :
  fst (px_search_video "k" "q"
         (Sample.answering [Sample.hit (JObj ∅) (Sample.rendition "http://cdn/b")])) =
    Ok (JStr "http://cdn/b") ∧
  fst (px_search_video "k" "q"
         (Sample.answering [Sample.hit (JObj {[ "width" := JInt 1920 ]})
                                       (Sample.rendition "http://cdn/b")])) =
    Raise (KeyError "url").
Proof.
  split.
  - apply (proj1 (large_fallback_edges "k" "q"
        (Sample.answering [Sample.hit (JObj ∅) (Sample.rendition "http://cdn/b")])
        (Sample.page [Sample.hit (JObj ∅) (Sample.rendition "http://cdn/b")])
        {[ "total" := JInt 1;
           "hits" := JArr [Sample.hit (JObj ∅) (Sample.rendition "http://cdn/b")] ]}
        {[ "videos" := JObj {[ "large" := JObj ∅;
                               "medium" := Sample.rendition "http://cdn/b" ]} ]}
        {[ "large" := JObj ∅; "medium" := Sample.rendition "http://cdn/b" ]}
        [] (conj eq_refl eq_refl) eq_refl eq_refl eq_refl)
      {[ "url" := JStr "http://cdn/b" ]}); reflexivity.
  - apply (proj2 (large_fallback_edges "k" "q"
        (Sample.answering [Sample.hit (JObj {[ "width" := JInt 1920 ]})
                                      (Sample.rendition "http://cdn/b")])
        (Sample.page [Sample.hit (JObj {[ "width" := JInt 1920 ]})
                                 (Sample.rendition "http://cdn/b")])
        {[ "total" := JInt 1;
           "hits" := JArr [Sample.hit (JObj {[ "width" := JInt 1920 ]})
                                      (Sample.rendition "http://cdn/b")] ]}
        {[ "videos" := JObj {[ "large" := JObj {[ "width" := JInt 1920 ]};
                               "medium" := Sample.rendition "http://cdn/b" ]} ]}
        {[ "large" := JObj {[ "width" := JInt 1920 ]};
           "medium" := Sample.rendition "http://cdn/b" ]}
        [] (conj eq_refl eq_refl) eq_refl eq_refl eq_refl)
      {[ "width" := JInt 1920 ]}); [reflexivity | discriminate | reflexivity].
Defined.

(** ** Where the key goes, and what happens without one *)

(** X15: every request of a run either goes to the Pixabay endpoint or
    carries no parameters at all: the key is sent with the searches and
    never with a download, whose URL came out of a response. *)
Theorem key_stays_with_pixabay segs w :
  ∃ new, log (snd (run segs w)) = log w ++ new ∧
         Forall (fun r => r_url r = BASE ∨ r_params r = []) new.
Proof.
  destruct (run_requests_shape segs w)
    as (key & n & new & _ & Hlog & Hs & _ & Hd & _).
  exists new. split; [done|].
  apply Forall_forall. intros r Hr.
  destruct (r_stream r) eqn:Hstream.
  - right.
    assert (r ∈ downloads new) as Hin.
    { apply list_elem_of_In, List.filter_In. split; [by apply list_elem_of_In|done]. }
    destruct (proj1 (Forall_forall _ _) Hd r Hin) as [u ->]. reflexivity.
  - left.
    assert (r ∈ searches new) as Hin.
    { apply list_elem_of_In, List.filter_In. split; [by apply list_elem_of_In|].
      by rewrite Hstream. }
    rewrite Hs in Hin. apply list_elem_of_fmap in Hin as (seg & -> & _).
    reflexivity.
Qed.

(** X16: with no key in the environment and nothing to read on the
    terminal, the run raises [EOFError] at once: no request goes out and
    the world is as before. *)
Theorem no_key_no_run segs w :
  no_key_in_environ w → stdin w = [] → run segs w = (Raise EOFError, w).
Proof.
  intros Hno Hin. unfold run. unfold bind at 1.
  unfold resolve_API_KEY, bind, os.getenv, os.input.
  destruct Hno as [-> | ->]; by rewrite Hin.
Qed.

Lemma no_key_no_run_witness :
  run SEGMENTS (set_stdin [] Sample.blank_typed) =
    (Raise EOFError, set_stdin [] Sample.blank_typed).
Proof.
  apply (no_key_no_run SEGMENTS (set_stdin [] Sample.blank_typed));
    [by left | reflexivity].
Defined.

(** *** Further instances *)

Lemma search_failure_stops_run_witness :
  run Sample.segs Sample.denying =
    (Raise (HTTPError 401), sent (search_request "k" "wide") Sample.denying).
Proof.
  destruct (search_failure_stops_run "k" "wide" Sample.denying)
    as (_ & Hstatus & _ & Hrun).
  apply (Hrun (HTTPError 401) Sample.denying Sample.denying [] []
           5%Q "a.mp4" [("tall", 10%Q, "b.mp4")]).
  - rewrite (Hstatus _ eq_refl eq_refl). reflexivity.
  - reflexivity.
  - reflexivity.
Defined.

Lemma main_lasts_a_minute_witness :
  (c_duration Sample.minute == 60)%Q ∧
  (Qsum (map v_duration (c_clips Sample.minute)) == 60)%Q.
Proof.
  split; [|reflexivity].
  apply (main_lasts_a_minute Sample.generous Sample.minute Sample.minute_after).
  reflexivity.
Defined.
